(** * shelldoc: the interaction engine (pkg/interaction/interaction.go)

    A shallow embedding of the [Interaction] record and of its methods
    [Describe], [Result], [HasFailure], [New], [Execute], [compareRegex]
    and of the helper [elideString], followed by the properties the
    specification states about them and by further properties of the code.

    Go data is modelled as the source has it:
    - a Go [string] is a sequence of bytes: [String.string];
    - [int] values (result codes, exit codes, lengths) are [Z];
    - a [[]string] is a [slice], which keeps the difference between the nil
      slice and a non-nil slice without elements, because
      [reflect.DeepEqual] observes it;
    - an [error] is [option string]: [None] is the nil error, [Some m] an
      error whose [Error()] text is [m];
    - the shell ([pkg/shell], not part of this file) is a parameter:
      a state type and its [ExecuteCommand]. *)

From Stdlib Require Import ZArith String Ascii List Bool Lia DecimalString.
From Stdlib Require DecimalPos DecimalZ.
Import ListNotations.

Local Open Scope string_scope.
Local Open Scope Z_scope.

(** ** Go strings *)

(** The one-byte string holding a double quote (byte 34). *)
Definition dquote : string := String (ascii_of_nat 34) EmptyString.

(** [len(s)] on a string: its number of bytes. *)
Definition strlen (s : string) : Z := Z.of_nat (String.length s).

(** [s[:n]] for [0 <= n <= len(s)]. *)
Definition slice_to (s : string) (n : Z) : string := substring 0 (Z.to_nat n) s.

(** [fmt.Sprintf("%d", n)]: the decimal digits of [n], with a leading minus
    sign when [n] is negative. *)
Definition Sprintf_d (n : Z) : string := NilZero.string_of_int (Z.to_int n).

(** ** Go slices of strings *)

Inductive slice : Type :=
| SliceNil : slice
| SliceOf : list string -> slice.

Definition elements (s : slice) : list string :=
  match s with
  | SliceNil => []
  | SliceOf l => l
  end.

Definition is_nil (s : slice) : bool :=
  match s with
  | SliceNil => true
  | SliceOf _ => false
  end.

(** [len(s)] on a slice. *)
Definition len (s : slice) : Z := Z.of_nat (List.length (elements s)).

Fixpoint lines_eqb (a b : list string) : bool :=
  match a, b with
  | [], [] => true
  | x :: a', y :: b' => String.eqb x y && lines_eqb a' b'
  | _, _ => false
  end.

(** [reflect.DeepEqual] on two [[]string] values: both nil or both non-nil,
    same length, and equal elements at every index. *)
Definition DeepEqual (a b : slice) : bool :=
  match a, b with
  | SliceNil, SliceNil => true
  | SliceOf x, SliceOf y => lines_eqb x y
  | _, _ => false
  end.

(** [strings.Join(elems, sep)]. *)
Fixpoint join_list (l : list string) (sep : string) : string :=
  match l with
  | [] => EmptyString
  | [x] => x
  | x :: rest => x ++ sep ++ join_list rest sep
  end.

Definition Join (s : slice) (sep : string) : string := join_list (elements s) sep.

(** ** Result codes (the [iota] block) *)

Definition NewInteraction : Z := 0.
Definition ResultExecutionError : Z := 1.
Definition ResultError : Z := 2.
Definition ResultMatch : Z := 3.
Definition ResultRegexMatch : Z := 4.
Definition ResultMismatch : Z := 5.

(** ** The Interaction struct *)

Record Interaction : Type := mkInteraction {
  Cmd : string;
  Response : slice;
  Caption : string;
  ResultCode : Z;
  Comment : string
}.

Definition set_ResultCode (i : Interaction) (rc : Z) : Interaction :=
  mkInteraction (Cmd i) (Response i) (Caption i) rc (Comment i).

Definition set_Comment (i : Interaction) (c : string) : Interaction :=
  mkInteraction (Cmd i) (Response i) (Caption i) (ResultCode i) c.

(** ** elideString *)

Definition elideString (text : string) (length : Z) : string :=
  if (length >? 6) && (strlen text >? length)
  then slice_to text (length - 3) ++ "..."
  else text.

(** ** Describe *)

Definition elideAt : Z := 30.

Definition Describe (interaction : Interaction) : string :=
  if strlen (Caption interaction) =? 0 then
    let expect := elideString (Join (Response interaction) ", ") elideAt in
    let expect :=
      if strlen expect =? 0
      then "(no response expected)"
      else "(expecting " ++ dquote ++ expect ++ dquote ++ ")" in
    "command " ++ dquote ++ elideString (Cmd interaction) elideAt ++ dquote
      ++ " " ++ expect
  else Caption interaction.

(** ** Result *)

Definition Result (interaction : Interaction) : string :=
  let rc := ResultCode interaction in
  if rc =? NewInteraction then "not executed"
  else if rc =? ResultExecutionError then "ERROR (result not evaluated)"
  else if rc =? ResultMatch then
    if len (Response interaction) =? 0
    then "PASS (execution successful)"
    else "PASS (match)"
  else if rc =? ResultRegexMatch then "PASS (regex match)"
  else if rc =? ResultMismatch then "FAIL (mismatch)"
  else "WTF".

(** ** HasFailure *)

Definition HasFailure (interaction : Interaction) : bool :=
  (ResultCode interaction =? ResultError)
  || (ResultCode interaction =? ResultMismatch).

(** ** New *)

Definition New (caption : string) : Interaction :=
  mkInteraction EmptyString SliceNil caption 0 EmptyString.

(** ** compareRegex *)

Definition compareRegex (interaction : Interaction) (output : slice) : bool :=
  false.

(** ** Execute *)

Definition error : Type := option string.

(** What [shell.ExecuteCommand] hands back: output lines, exit code, error. *)
Definition reply : Type := (slice * Z * error)%type.

Definition reply_output (r : reply) : slice := fst (fst r).
Definition reply_rc (r : reply) : Z := snd (fst r).
Definition reply_err (r : reply) : error := snd r.

Section Execute.

(** The state of the shell behind the [*shell.Shell] pointer, and its
    [ExecuteCommand] method, which may change that state. *)
Context {Shell : Type}.
Variable ExecuteCommand : Shell -> string -> Shell * reply.

Definition Execute (shell : Shell) (interaction : Interaction)
  : Shell * Interaction * error :=
  let '(shell', (output, rc, err)) := ExecuteCommand shell (Cmd interaction) in
  match err with
  | Some msg =>
      (shell',
       set_Comment (set_ResultCode interaction ResultExecutionError) msg,
       Some ("unable to execute command: " ++ msg))
  | None =>
      if negb (rc =? 0) then
        (shell',
         set_Comment (set_ResultCode interaction ResultError)
           ("command exited with non-zero exit code " ++ Sprintf_d rc),
         None)
      else if DeepEqual output (Response interaction) then
        (shell',
         set_Comment (set_ResultCode interaction ResultMatch) EmptyString,
         None)
      else if compareRegex interaction output then
        (shell', set_ResultCode interaction ResultRegexMatch, None)
      else
        (shell',
         set_Comment (set_ResultCode interaction ResultMismatch) EmptyString,
         None)
  end.

(** The interaction as [Execute] leaves it, and the error [Execute] returns. *)
Definition executed (shell : Shell) (i : Interaction) : Interaction :=
  snd (fst (Execute shell i)).

Definition returned (shell : Shell) (i : Interaction) : error :=
  snd (Execute shell i).

(** The reply the shell gives to the interaction's command. *)
Definition shell_reply (shell : Shell) (i : Interaction) : reply :=
  snd (ExecuteCommand shell (Cmd i)).

End Execute.

(** A shell without state that answers every command with the same reply. *)
Definition replyShell (r : reply) : unit -> string -> unit * reply :=
  fun _ _ => (tt, r).

(** ** Notions the specification uses *)

(** "Exactly equal (same length, same strings, same order)": the two
    sequences of lines are the same list. *)
Definition same_lines (a b : slice) : Prop := elements a = elements b.

(** A preview [p] of [text] "truncated with an ellipsis appended": a proper
    prefix of [text] followed by three dots. *)
Definition truncated_with_ellipsis (text p : string) : Prop :=
  exists n : nat,
    (n < String.length text)%nat /\ p = substring 0 n text ++ "...".

(** The preview [Describe] shows for [text]: [text] itself when it has at
    most 30 bytes, otherwise its first 27 bytes followed by three dots. *)
Definition elided (text p : string) : Prop :=
  (strlen text <= 30 /\ p = text)
  \/ (30 < strlen text /\
      exists q rest, text = q ++ rest /\ strlen q = 27 /\ p = q ++ "...").

(** The interactions the examples below run. *)
Definition echo_true : Interaction :=
  mkInteraction "echo true" SliceNil EmptyString NewInteraction EmptyString.

Definition echo_hello : Interaction :=
  mkInteraction "echo hello" (SliceOf ["Hello"]) EmptyString NewInteraction
    "stale".

Definition echo_long : Interaction :=
  mkInteraction "echo hello world this is long" SliceNil EmptyString
    NewInteraction EmptyString.

(** ** Sanity checks of the embedding on concrete values *)

Example Sprintf_d_127 : Sprintf_d 127 = "127".
Proof. reflexivity. Qed.

Example Sprintf_d_neg : Sprintf_d (-1) = "-1".
Proof. reflexivity. Qed.

Example Sprintf_d_zero : Sprintf_d 0 = "0".
Proof. reflexivity. Qed.

Example Join_three :
  Join (SliceOf ["a"; "b"; "c"]) ", " = "a, b, c".
Proof. reflexivity. Qed.

Example elideString_31 :
  elideString "0123456789012345678901234567890" 30
  = "012345678901234567890123456...".
Proof. reflexivity. Qed.

Example elideString_30 :
  elideString "012345678901234567890123456789" 30
  = "012345678901234567890123456789".
Proof. reflexivity. Qed.

Example elideString_small_length :
  elideString "0123456789" 6 = "0123456789".
Proof. reflexivity. Qed.

Example Describe_with_response :
  Describe echo_hello
  = "command " ++ dquote ++ "echo hello" ++ dquote
      ++ " (expecting " ++ dquote ++ "Hello" ++ dquote ++ ")".
Proof. reflexivity. Qed.

Example Result_echo_true :
  Result (executed (replyShell (SliceNil, 0, None)) tt echo_true)
  = "PASS (execution successful)".
Proof. reflexivity. Qed.

Example Execute_echo_true :
  Execute (replyShell (SliceNil, 0, None)) tt echo_true
  = (tt, set_ResultCode echo_true ResultMatch, None).
Proof. reflexivity. Qed.

(** ** Facts about the helpers *)

Lemma lines_eqb_eq (a b : list string) : lines_eqb a b = true <-> a = b.
Proof.
  revert b; induction a as [|x a IH]; intros [|y b]; simpl;
    try (split; [discriminate | congruence]).
  - split; reflexivity.
  - rewrite andb_true_iff, String.eqb_eq, IH.
    split; [intros [-> ->]; reflexivity | intros E; injection E; auto].
Qed.

(** [DeepEqual] holds exactly of two slices that are the same value: the
    same lines and the same nil-ness. *)
Lemma DeepEqual_eq (a b : slice) : DeepEqual a b = true <-> a = b.
Proof.
  destruct a as [|x], b as [|y]; simpl;
    try (split; [discriminate | congruence]).
  - split; reflexivity.
  - rewrite lines_eqb_eq. split; [congruence | intros E; injection E; auto].
Qed.

Lemma DeepEqual_same_lines (a b : slice) :
  DeepEqual a b = true <-> same_lines a b /\ is_nil a = is_nil b.
Proof.
  rewrite DeepEqual_eq. unfold same_lines.
  destruct a, b; simpl; split;
    try (intros [E N]); try intros E; try discriminate; subst; auto.
  injection E as ->. auto.
Qed.

Lemma compareRegex_false (i : Interaction) (output : slice) :
  compareRegex i output = false.
Proof. reflexivity. Qed.

(** ** Facts about Execute, for every shell *)

Section ExecuteFacts.

Context {Shell : Type}.
Variable ExecuteCommand : Shell -> string -> Shell * reply.

(** Opens [Execute] on the reply the shell gives. *)
Ltac open_Execute sh i :=
  unfold executed, returned, shell_reply,
    reply_err, reply_rc, reply_output, Execute;
  destruct (ExecuteCommand sh (Cmd i)) as [sh' [[output rc] err]];
  cbn [fst snd].

(** The match branch: a nil error, exit code 0 and deeply equal output. *)
Lemma Execute_DeepEqual_match (sh : Shell) (i : Interaction) :
  reply_err (shell_reply ExecuteCommand sh i) = None ->
  reply_rc (shell_reply ExecuteCommand sh i) = 0 ->
  DeepEqual (reply_output (shell_reply ExecuteCommand sh i)) (Response i) = true ->
  ResultCode (executed ExecuteCommand sh i) = ResultMatch
  /\ Comment (executed ExecuteCommand sh i) = EmptyString
  /\ returned ExecuteCommand sh i = None.
Proof.
  open_Execute sh i. intros -> -> ->. cbn. auto.
Qed.

(** The mismatch branch. *)
Lemma Execute_not_DeepEqual_mismatch (sh : Shell) (i : Interaction) :
  reply_err (shell_reply ExecuteCommand sh i) = None ->
  reply_rc (shell_reply ExecuteCommand sh i) = 0 ->
  DeepEqual (reply_output (shell_reply ExecuteCommand sh i)) (Response i) = false ->
  ResultCode (executed ExecuteCommand sh i) = ResultMismatch
  /\ Comment (executed ExecuteCommand sh i) = EmptyString
  /\ returned ExecuteCommand sh i = None.
Proof.
  open_Execute sh i. intros -> -> ->. cbn. auto.
Qed.

(** When output and expected response hold the same lines, the outcome
    turns on their nil-ness alone: a match when both are nil or both are
    not, a mismatch when one is nil and the other is not. *)
Lemma Execute_same_lines (sh : Shell) (i : Interaction) :
  reply_err (shell_reply ExecuteCommand sh i) = None ->
  reply_rc (shell_reply ExecuteCommand sh i) = 0 ->
  same_lines (reply_output (shell_reply ExecuteCommand sh i)) (Response i) ->
  (is_nil (reply_output (shell_reply ExecuteCommand sh i)) = is_nil (Response i) ->
   ResultCode (executed ExecuteCommand sh i) = ResultMatch
   /\ Comment (executed ExecuteCommand sh i) = EmptyString)
  /\ (is_nil (reply_output (shell_reply ExecuteCommand sh i)) <> is_nil (Response i) ->
      ResultCode (executed ExecuteCommand sh i) = ResultMismatch).
Proof.
  intros He Hrc Hs. split; intros Hn.
  - destruct (Execute_DeepEqual_match sh i He Hrc) as (R & C & _); auto.
    apply DeepEqual_same_lines. auto.
  - destruct (Execute_not_DeepEqual_mismatch sh i He Hrc) as (R & _); auto.
    apply not_true_is_false. rewrite DeepEqual_same_lines. tauto.
Qed.

(** Every run of [Execute] ends in one of four result codes. *)
Lemma Execute_ResultCode_cases (sh : Shell) (i : Interaction) :
  ResultCode (executed ExecuteCommand sh i) = ResultExecutionError
  \/ ResultCode (executed ExecuteCommand sh i) = ResultError
  \/ ResultCode (executed ExecuteCommand sh i) = ResultMatch
  \/ ResultCode (executed ExecuteCommand sh i) = ResultMismatch.
Proof.
  open_Execute sh i.
  destruct err as [msg|]; [cbn; auto|].
  destruct (rc =? 0); [|cbn; auto].
  destruct (DeepEqual output (Response i)); cbn; auto.
Qed.

(** C2: Execute returns a non-nil error exactly when the shell itself
    reports one.  On that path the result code is ResultExecutionError, the
    comment is the error's text and the returned error wraps that text;
    whenever the shell reports no error (non-zero exit, match, mismatch)
    Execute returns nil. *)
Theorem Execute_error_iff_shell_error (sh : Shell) (i : Interaction) :
  (returned ExecuteCommand sh i <> None <-> reply_err (shell_reply ExecuteCommand sh i) <> None)
  /\ (forall msg, reply_err (shell_reply ExecuteCommand sh i) = Some msg ->
        ResultCode (executed ExecuteCommand sh i) = ResultExecutionError
        /\ Comment (executed ExecuteCommand sh i) = msg
        /\ returned ExecuteCommand sh i = Some ("unable to execute command: " ++ msg)
        /\ HasFailure (executed ExecuteCommand sh i) = false)
  /\ (reply_err (shell_reply ExecuteCommand sh i) = None -> returned ExecuteCommand sh i = None).
Proof.
  open_Execute sh i.
  destruct err as [m|].
  - cbn. repeat split; try discriminate; try congruence;
      intros msg E; injection E as <-; reflexivity.
  - assert (R : forall (x y z : Shell * Interaction * error),
               snd x = None -> snd y = None -> snd z = None ->
               forall b1 b2 : bool,
                 snd (if b1 then x else if b2 then y else z) = None)
      by (intros x y z ? ? ? [|] [|]; assumption).
    split; [|split]; [| discriminate |].
    + split; intros H; exfalso; apply H; [|reflexivity].
      destruct (rc =? 0), (DeepEqual output (Response i)); reflexivity.
    + intros _.
      destruct (rc =? 0), (DeepEqual output (Response i)); reflexivity.
Qed.

(** C3: when the shell reports no error and a non-zero exit code, Execute
    sets ResultError and the comment
    "command exited with non-zero exit code <N>", whatever the output is,
    and returns nil. *)
Theorem Execute_nonzero_exit_code (sh : Shell) (i : Interaction) :
  reply_err (shell_reply ExecuteCommand sh i) = None ->
  reply_rc (shell_reply ExecuteCommand sh i) <> 0 ->
  ResultCode (executed ExecuteCommand sh i) = ResultError
  /\ Comment (executed ExecuteCommand sh i)
     = "command exited with non-zero exit code "
         ++ Sprintf_d (reply_rc (shell_reply ExecuteCommand sh i))
  /\ returned ExecuteCommand sh i = None
  /\ HasFailure (executed ExecuteCommand sh i) = true.
Proof.
  open_Execute sh i. intros -> Hrc.
  apply Z.eqb_neq in Hrc. rewrite Hrc. cbn. auto.
Qed.

(** C8: compareRegex answers false for every interaction and every output,
    and no run of Execute, for any interaction and any shell, leaves the
    result code ResultRegexMatch. *)
Theorem compareRegex_never_matches :
  (forall (i : Interaction) (output : slice), compareRegex i output = false)
  /\ (forall (sh : Shell) (i : Interaction),
        ResultCode (executed ExecuteCommand sh i) <> ResultRegexMatch).
Proof.
  split; [reflexivity|].
  intros sh i.
  destruct (Execute_ResultCode_cases sh i) as [E|[E|[E|E]]];
    rewrite E; discriminate.
Qed.

(** C10: Execute writes ResultCode and Comment only; Cmd, Response and
    Caption are after Execute what they were before, for every interaction
    and every reply of the shell. *)
Theorem Execute_frame (sh : Shell) (i : Interaction) :
  Cmd (executed ExecuteCommand sh i) = Cmd i
  /\ Response (executed ExecuteCommand sh i) = Response i
  /\ Caption (executed ExecuteCommand sh i) = Caption i.
Proof.
  open_Execute sh i.
  destruct err as [msg|]; [cbn; auto|].
  destruct (rc =? 0); [|cbn; auto].
  destruct (DeepEqual output (Response i)); cbn; auto.
Qed.

(** C7, as the code has it: when the shell reports no error, exit code 0 and
    an output that is not deeply equal to the expected response, Execute
    sets ResultMismatch and clears the comment; the comment is the empty
    string after a mismatch as it is after a match. *)
Theorem Execute_mismatch_clears_comment (sh : Shell) (i : Interaction) :
  reply_err (shell_reply ExecuteCommand sh i) = None ->
  reply_rc (shell_reply ExecuteCommand sh i) = 0 ->
  DeepEqual (reply_output (shell_reply ExecuteCommand sh i)) (Response i) = false ->
  ResultCode (executed ExecuteCommand sh i) = ResultMismatch
  /\ Comment (executed ExecuteCommand sh i) = EmptyString
  /\ (forall j : Interaction,
        ResultCode (executed ExecuteCommand sh j) = ResultMismatch
        \/ ResultCode (executed ExecuteCommand sh j) = ResultMatch ->
        Comment (executed ExecuteCommand sh j) = EmptyString).
Proof.
  intros He Hrc Hd.
  destruct (Execute_not_DeepEqual_mismatch sh i He Hrc Hd) as (R & C & _).
  repeat split; trivial.
  clear. intros j. open_Execute sh j.
  destruct err as [msg|]; [cbn; intros [|]; discriminate|].
  destruct (rc =? 0); [|cbn; intros [|]; discriminate].
  destruct (DeepEqual output (Response j)); cbn; auto.
Qed.

End ExecuteFacts.

(** ** Facts about strings and elideString *)

Lemma length_append (a b : string) :
  String.length (a ++ b) = (String.length a + String.length b)%nat.
Proof. induction a as [|c a IH]; simpl; [reflexivity | now rewrite IH]. Qed.

(** [s[:n]] is a prefix of [s] of [n] bytes, when [s] has that many. *)
Lemma substring_split (n : nat) (s : string) :
  (n <= String.length s)%nat ->
  exists rest,
    s = substring 0 n s ++ rest /\ String.length (substring 0 n s) = n.
Proof.
  revert s; induction n as [|n IH]; intros s Hn.
  - exists s. destruct s; simpl; auto.
  - destruct s as [|c s]; simpl in Hn; [lia|].
    destruct (IH s) as (rest & E & L); [lia|].
    exists rest. simpl. rewrite L. split; [f_equal; exact E | reflexivity].
Qed.

Lemma strlen_nonneg (s : string) : 0 <= strlen s.
Proof. unfold strlen; lia. Qed.

Lemma strlen_zero (s : string) : strlen s = 0 <-> s = EmptyString.
Proof.
  unfold strlen. destruct s; simpl; split; intros H;
    try reflexivity; try discriminate; lia.
Qed.

Lemma strlen_append (a b : string) : strlen (a ++ b) = strlen a + strlen b.
Proof. unfold strlen. rewrite length_append. lia. Qed.

(** At the threshold of Describe, elideString leaves a text of at most 30
    bytes alone and turns a longer one into its first 27 bytes and "...". *)
Lemma elideString_elided (text : string) :
  elided text (elideString text elideAt).
Proof.
  unfold elided, elideString, elideAt.
  change (30 >? 6) with true. cbn [andb].
  rewrite Z.gtb_ltb. destruct (Z.ltb_spec 30 (strlen text)) as [Hlt|Hle].
  - right. split; [exact Hlt|].
    destruct (substring_split 27 text) as (rest & E & L).
    { unfold strlen in Hlt. lia. }
    exists (substring 0 27 text), rest.
    split; [exact E|].
    split; [unfold strlen; rewrite L; reflexivity | reflexivity].
  - left. auto.
Qed.

Lemma elideString_empty_iff (text : string) :
  elideString text elideAt = EmptyString <-> text = EmptyString.
Proof.
  destruct (elideString_elided text) as [[_ ->]|(Hlt & q & rest & _ & _ & ->)].
  - reflexivity.
  - split; intros H.
    + apply (f_equal strlen) in H. rewrite strlen_append in H.
      pose proof (strlen_nonneg q). cbn in H. lia.
    + subst text. cbn in Hlt. lia.
Qed.

Lemma elided_length (text p : string) : elided text p -> strlen p <= 30.
Proof.
  intros [[H ->]|(_ & q & rest & _ & L & ->)]; [exact H|].
  rewrite strlen_append, L. cbn. lia.
Qed.

Lemma Join_nil_or_empty (s : slice) (sep : string) :
  len s = 0 -> Join s sep = EmptyString.
Proof.
  unfold len, Join. destruct (elements s); simpl; [reflexivity | lia].
Qed.

(** ** The claims about Result, HasFailure and Describe *)

(** C1, where the code departs from the claim: an interaction that expects
    no response (Response is the nil slice, as New leaves it), run against a
    shell that answers with an empty, non-nil slice of lines, exit code 0
    and no error.  Output and expectation are the same sequence of lines,
    yet reflect.DeepEqual tells a nil slice from an empty one, so Execute
    ends in ResultMismatch and Result is "FAIL (mismatch)"; the same happens
    with the two slices exchanged. *)
Theorem Execute_empty_output_vs_nil_response :
  same_lines (SliceOf []) (Response echo_true)
  /\ ResultCode (executed (replyShell (SliceOf [], 0, None)) tt echo_true)
     = ResultMismatch
  /\ Result (executed (replyShell (SliceOf [], 0, None)) tt echo_true)
     = "FAIL (mismatch)"
  /\ ResultCode
       (executed (replyShell (SliceNil, 0, None)) tt
          (mkInteraction "echo true" (SliceOf []) EmptyString NewInteraction
             EmptyString))
     = ResultMismatch.
Proof. repeat split. Qed.

(** C4, where the code departs from the claim: Result has no case for
    ResultError, so for an interaction whose command exited with a non-zero
    code it falls through to the final return and yields "WTF"; this is what
    Result says after Execute met exit code 1. *)
Theorem Result_ResultError_falls_through :
  (forall cmd resp cap com,
     Result (mkInteraction cmd resp cap ResultError com) = "WTF")
  /\ Result (executed (replyShell (SliceNil, 1, None)) tt echo_true) = "WTF".
Proof. split; reflexivity. Qed.

(** C5: HasFailure is true exactly for ResultError and ResultMismatch; it is
    false for ResultExecutionError, for NewInteraction and for the passing
    codes ResultMatch and ResultRegexMatch. *)
Theorem HasFailure_iff (i : Interaction) :
  (HasFailure i = true
   <-> ResultCode i = ResultError \/ ResultCode i = ResultMismatch)
  /\ (forall cmd resp cap com,
        HasFailure (mkInteraction cmd resp cap ResultExecutionError com) = false
        /\ HasFailure (mkInteraction cmd resp cap NewInteraction com) = false
        /\ HasFailure (mkInteraction cmd resp cap ResultMatch com) = false
        /\ HasFailure (mkInteraction cmd resp cap ResultRegexMatch com) = false).
Proof.
  split; [|intros; repeat split].
  unfold HasFailure. rewrite orb_true_iff, !Z.eqb_eq. reflexivity.
Qed.

(** C6: Result maps NewInteraction to "not executed", ResultExecutionError
    to "ERROR (result not evaluated)", ResultMatch to
    "PASS (execution successful)" when the expected response has no lines
    (nil or empty) and to "PASS (match)" when it has some, ResultRegexMatch
    to "PASS (regex match)" and ResultMismatch to "FAIL (mismatch)". *)
Theorem Result_fixed_strings (cmd cap com : string) (resp : slice) :
  Result (mkInteraction cmd resp cap NewInteraction com) = "not executed"
  /\ Result (mkInteraction cmd resp cap ResultExecutionError com)
     = "ERROR (result not evaluated)"
  /\ Result (mkInteraction cmd SliceNil cap ResultMatch com)
     = "PASS (execution successful)"
  /\ Result (mkInteraction cmd (SliceOf []) cap ResultMatch com)
     = "PASS (execution successful)"
  /\ (forall line rest,
        Result (mkInteraction cmd (SliceOf (line :: rest)) cap ResultMatch com)
        = "PASS (match)")
  /\ Result (mkInteraction cmd resp cap ResultRegexMatch com)
     = "PASS (regex match)"
  /\ Result (mkInteraction cmd resp cap ResultMismatch com)
     = "FAIL (mismatch)".
Proof. repeat split. Qed.

(** C7, the claim as stated fails: the shell prints "hello" where "Hello" is
    expected; Execute ends in ResultMismatch and the comment, "stale"
    before, is the empty string. *)
Lemma Execute_mismatch_comment_is_empty :
  ResultCode (executed (replyShell (SliceOf ["hello"], 0, None)) tt echo_hello)
  = ResultMismatch
  /\ Comment (executed (replyShell (SliceOf ["hello"], 0, None)) tt echo_hello)
     = EmptyString.
Proof. split; reflexivity. Qed.

(** C9, the claim as stated fails: the command
    "echo hello world this is long" has 29 bytes, which is not more than 30;
    its preview is the command itself and is no proper prefix of it followed
    by an ellipsis. *)
Lemma Describe_echo_long_not_truncated :
  strlen (Cmd echo_long) = 29
  /\ elideString (Cmd echo_long) elideAt = Cmd echo_long
  /\ ~ truncated_with_ellipsis (Cmd echo_long)
         (elideString (Cmd echo_long) elideAt).
Proof.
  split; [reflexivity|]. split; [reflexivity|].
  intros (n & Hn & E).
  change (elideString (Cmd echo_long) elideAt) with (Cmd echo_long) in E.
  destruct (substring_split n (Cmd echo_long)) as (rest & _ & L); [lia|].
  pose proof (f_equal String.length E) as EL.
  rewrite length_append, L in EL. cbn in EL.
  assert (n = 26%nat) as -> by lia.
  discriminate E.
Qed.

(** C9, as the code has it: Describe returns the caption whenever it is not
    empty; for an empty caption it returns [command "<c>" <e>], where <c> is
    the command, unchanged when it has at most 30 bytes and otherwise its
    first 27 bytes followed by "...", and <e> is "(no response expected)"
    when the joined response is empty (so whenever the expected response has
    no lines) and [(expecting "<r>")] otherwise, <r> being the lines joined
    by ", " and elided the same way; neither preview exceeds 30 bytes.  The
    29-byte command "echo hello world this is long" is shown in full. *)
Theorem Describe_caption_or_preview (i : Interaction) :
  (Caption i <> EmptyString -> Describe i = Caption i)
  /\ (Caption i = EmptyString ->
      exists c e,
        Describe i = "command " ++ dquote ++ c ++ dquote ++ " " ++ e
        /\ elided (Cmd i) c /\ strlen c <= 30
        /\ (len (Response i) = 0 -> e = "(no response expected)")
        /\ ((Join (Response i) ", " = EmptyString
             /\ e = "(no response expected)")
            \/ (Join (Response i) ", " <> EmptyString
                /\ exists r,
                    elided (Join (Response i) ", ") r /\ strlen r <= 30
                    /\ e = "(expecting " ++ dquote ++ r ++ dquote ++ ")")))
  /\ Describe echo_long
     = "command " ++ dquote ++ "echo hello world this is long" ++ dquote
         ++ " (no response expected)".
Proof.
  split; [|split; [|reflexivity]].
  - intros Hc. unfold Describe.
    destruct (Z.eqb_spec (strlen (Caption i)) 0) as [E|_]; [|reflexivity].
    apply strlen_zero in E. contradiction.
  - intros Hc. unfold Describe. rewrite Hc. cbn [strlen String.length Z.of_nat Z.eqb].
    set (j := Join (Response i) ", ").
    pose proof (elideString_elided (Cmd i)) as Hcmd.
    pose proof (elideString_elided j) as Hj.
    pose proof (elideString_empty_iff j) as Hempty.
    eexists (elideString (Cmd i) elideAt), _.
    split; [reflexivity|].
    split; [exact Hcmd|]. split; [exact (elided_length _ _ Hcmd)|].
    destruct (Z.eqb_spec (strlen (elideString j elideAt)) 0) as [E|N].
    + apply strlen_zero, Hempty in E. split; [reflexivity|]. left. auto.
    + assert (j <> EmptyString) as Hne.
      { intros Ej. apply N. apply strlen_zero, Hempty, Ej. }
      split.
      * intros Hlen. exfalso. apply Hne.
        apply Join_nil_or_empty, Hlen.
      * right. split; [exact Hne|].
        exists (elideString j elideAt).
        split; [exact Hj|]. split; [exact (elided_length _ _ Hj)|reflexivity].
Qed.

(** ** The theorems at concrete runs *)

Lemma Execute_nonzero_exit_code_at_2 :
  ResultCode (executed (replyShell (SliceOf ["boom"], 2, None)) tt echo_true)
  = ResultError
  /\ Comment (executed (replyShell (SliceOf ["boom"], 2, None)) tt echo_true)
     = "command exited with non-zero exit code 2"
  /\ returned (replyShell (SliceOf ["boom"], 2, None)) tt echo_true = None
  /\ HasFailure
       (executed (replyShell (SliceOf ["boom"], 2, None)) tt echo_true)
     = true.
Proof.
  apply (Execute_nonzero_exit_code
           (replyShell (SliceOf ["boom"], 2, None)) tt echo_true).
  - reflexivity.
  - cbn. lia.
Defined.

Lemma Execute_mismatch_clears_comment_at_hello :
  ResultCode (executed (replyShell (SliceOf ["hello"], 0, None)) tt echo_hello)
  = ResultMismatch
  /\ Comment (executed (replyShell (SliceOf ["hello"], 0, None)) tt echo_hello)
     = EmptyString
  /\ (forall j : Interaction,
        ResultCode (executed (replyShell (SliceOf ["hello"], 0, None)) tt j)
        = ResultMismatch
        \/ ResultCode (executed (replyShell (SliceOf ["hello"], 0, None)) tt j)
           = ResultMatch ->
        Comment (executed (replyShell (SliceOf ["hello"], 0, None)) tt j)
        = EmptyString).
Proof.
  apply (Execute_mismatch_clears_comment
           (replyShell (SliceOf ["hello"], 0, None)) tt echo_hello);
    reflexivity.
Defined.

(** ** More about elideString, for every length *)

Lemma append_inj_l (p a b : string) : p ++ a = p ++ b -> a = b.
Proof.
  induction p as [|c p IH]; simpl; intros H; [exact H|].
  injection H as H. auto.
Qed.

(** The cut [text[:length-3]] taken by elideString is in range whenever
    elideString takes it. *)
Lemma elideString_cut (text : string) (length : Z) :
  6 < length -> length < strlen text ->
  exists rest,
    text = slice_to text (length - 3) ++ rest
    /\ strlen (slice_to text (length - 3)) = length - 3.
Proof.
  intros H6 Hlen. unfold slice_to.
  destruct (substring_split (Z.to_nat (length - 3)) text) as (rest & E & L).
  { unfold strlen in Hlen. lia. }
  exists rest. split; [exact E|]. unfold strlen. rewrite L. lia.
Qed.

Lemma elideString_long (text : string) (length : Z) :
  6 < length -> length < strlen text ->
  elideString text length = slice_to text (length - 3) ++ "...".
Proof.
  intros H6 Hlen. unfold elideString.
  rewrite !Z.gtb_ltb.
  destruct (Z.ltb_spec 6 length); [|lia].
  destruct (Z.ltb_spec length (strlen text)); [|lia].
  reflexivity.
Qed.

Lemma elideString_short (text : string) (length : Z) :
  length <= 6 \/ strlen text <= length ->
  elideString text length = text.
Proof.
  intros H. unfold elideString. rewrite !Z.gtb_ltb.
  destruct (Z.ltb_spec 6 length); [|reflexivity].
  destruct (Z.ltb_spec length (strlen text)); [lia|reflexivity].
Qed.

Lemma elideString_long_strlen (text : string) (length : Z) :
  6 < length -> length < strlen text ->
  strlen (elideString text length) = length.
Proof.
  intros H6 Hlen. rewrite elideString_long by assumption.
  destruct (elideString_cut text length H6 Hlen) as (rest & _ & L).
  rewrite strlen_append, L. cbn. lia.
Qed.

(** X1: when the limit is above 6 and the text is longer than the limit,
    elideString keeps the first [length - 3] bytes of the text, puts "..."
    after them, and the result has exactly [length] bytes. *)
Theorem elideString_truncates (text : string) (length : Z) :
  6 < length -> length < strlen text ->
  exists q rest,
    text = q ++ rest
    /\ strlen q = length - 3
    /\ elideString text length = q ++ "..."
    /\ strlen (elideString text length) = length.
Proof.
  intros H6 Hlen.
  destruct (elideString_cut text length H6 Hlen) as (rest & E & L).
  exists (slice_to text (length - 3)), rest.
  split; [exact E|]. split; [exact L|].
  split; [apply elideString_long; assumption|].
  apply elideString_long_strlen; assumption.
Qed.

(** X2: elideString hands the text back unchanged exactly when the limit is
    6 or less or the text has no more bytes than the limit; a limit of 6 or
    less therefore never shortens anything, however long the text. *)
Theorem elideString_unchanged_iff (text : string) (length : Z) :
  elideString text length = text <-> length <= 6 \/ strlen text <= length.
Proof.
  split; [|apply elideString_short].
  intros E.
  destruct (Z.le_gt_cases length 6) as [|H6]; [left; assumption|].
  destruct (Z.le_gt_cases (strlen text) length) as [|Hlen];
    [right; assumption|].
  pose proof (elideString_long_strlen text length H6 Hlen) as L.
  rewrite E in L. lia.
Qed.

(** X3: eliding twice with the same limit is eliding once. *)
Theorem elideString_idempotent (text : string) (length : Z) :
  elideString (elideString text length) length = elideString text length.
Proof.
  apply elideString_short.
  destruct (Z.le_gt_cases length 6) as [|H6]; [left; assumption|].
  right.
  destruct (Z.le_gt_cases (strlen text) length) as [Hle|Hlen].
  - rewrite elideString_short by (right; exact Hle). exact Hle.
  - rewrite elideString_long_strlen by assumption. lia.
Qed.

(** X4: elideString never makes a text longer, and with a limit above 6 its
    result has the smaller of the text's length and the limit. *)
Theorem elideString_strlen (text : string) (length : Z) :
  strlen (elideString text length) <= strlen text
  /\ strlen (elideString text length)
     = if length >? 6 then Z.min (strlen text) length else strlen text.
Proof.
  rewrite Z.gtb_ltb.
  destruct (Z.ltb_spec 6 length) as [H6|H6].
  - destruct (Z.le_gt_cases (strlen text) length) as [Hle|Hlen].
    + rewrite elideString_short by (right; exact Hle). lia.
    + rewrite elideString_long_strlen by assumption. lia.
  - rewrite elideString_short by (left; exact H6). lia.
Qed.

(** ** More about Describe *)

Lemma join_list_comma_empty_iff (l : list string) :
  join_list l ", " = EmptyString <-> l = [] \/ l = [EmptyString].
Proof.
  destruct l as [|x [|y l]]; simpl.
  - split; auto.
  - split; [intros ->; auto | intros [H|H]; [discriminate | congruence]].
  - split; [|intros [H|H]; discriminate].
    destruct x; simpl; discriminate.
Qed.

(** X5: with an empty caption, the description Describe builds has at most
    85 bytes, however long the command and the expected response are. *)
Theorem Describe_length_bound (i : Interaction) :
  Caption i = EmptyString -> strlen (Describe i) <= 85.
Proof.
  intros Hc. unfold Describe. rewrite Hc.
  cbn [strlen String.length Z.of_nat Z.eqb].
  pose proof (elided_length _ _ (elideString_elided (Cmd i))) as Hcmd.
  pose proof
    (elided_length _ _ (elideString_elided (Join (Response i) ", "))) as Hj.
  set (c := elideString (Cmd i) elideAt) in *.
  set (r := elideString (Join (Response i) ", ") elideAt) in *.
  clearbody c r.
  destruct (strlen r =? 0); rewrite !strlen_append;
    unfold strlen in *; cbn [String.length dquote]; lia.
Qed.

(** X6: with an empty caption, Describe ends in "(no response expected)"
    exactly when the expected lines joined by ", " are the empty string:
    when there is no expected line, and also when the one expected line is
    the empty line. *)
Theorem Describe_no_response_iff (i : Interaction) :
  Caption i = EmptyString ->
  (Describe i
   = "command " ++ dquote ++ elideString (Cmd i) elideAt ++ dquote
       ++ " (no response expected)"
   <-> elements (Response i) = [] \/ elements (Response i) = [EmptyString]).
Proof.
  intros Hc. unfold Describe. rewrite Hc.
  cbn [strlen String.length Z.of_nat Z.eqb].
  rewrite <- join_list_comma_empty_iff.
  change (join_list (elements (Response i)) ", ")
    with (Join (Response i) ", ").
  rewrite <- (elideString_empty_iff (Join (Response i) ", ")).
  rewrite <- strlen_zero.
  destruct (Z.eqb_spec (strlen (elideString (Join (Response i) ", ") elideAt)) 0)
    as [E|N].
  - split; [intros _; exact E | reflexivity].
  - split; [|intros E; contradiction].
    intros H. exfalso.
    do 4 apply append_inj_l in H.
    cbn in H. discriminate H.
Qed.

(** ** More about Execute, for every shell *)

Lemma Sprintf_d_inj (n m : Z) : Sprintf_d n = Sprintf_d m -> n = m.
Proof.
  unfold Sprintf_d. intros E.
  assert (P : forall z, NilZero.int_of_string
                          (NilZero.string_of_int (Z.to_int z))
                        = Some (Z.to_int z)).
  { intros z. apply NilZero.isi; destruct z; simpl; try discriminate;
      intros [= H]; revert H; apply DecimalPos.Unsigned.to_uint_nonnil. }
  apply DecimalZ.to_int_inj.
  pose proof (P n) as Pn. rewrite E, P in Pn. congruence.
Qed.

Section ExecuteOutcome.

Context {Shell : Type}.
Variable ExecuteCommand : Shell -> string -> Shell * reply.

(** The four ways Execute can end, each with the whole interaction it
    leaves and the error it returns. *)
Lemma executed_cases (sh : Shell) (i : Interaction) :
  (exists msg,
     reply_err (shell_reply ExecuteCommand sh i) = Some msg
     /\ executed ExecuteCommand sh i
        = mkInteraction (Cmd i) (Response i) (Caption i)
            ResultExecutionError msg
     /\ returned ExecuteCommand sh i
        = Some ("unable to execute command: " ++ msg))
  \/ (reply_err (shell_reply ExecuteCommand sh i) = None
      /\ reply_rc (shell_reply ExecuteCommand sh i) <> 0
      /\ executed ExecuteCommand sh i
         = mkInteraction (Cmd i) (Response i) (Caption i) ResultError
             ("command exited with non-zero exit code "
                ++ Sprintf_d (reply_rc (shell_reply ExecuteCommand sh i)))
      /\ returned ExecuteCommand sh i = None)
  \/ (reply_err (shell_reply ExecuteCommand sh i) = None
      /\ reply_rc (shell_reply ExecuteCommand sh i) = 0
      /\ reply_output (shell_reply ExecuteCommand sh i) = Response i
      /\ executed ExecuteCommand sh i
         = mkInteraction (Cmd i) (Response i) (Caption i) ResultMatch
             EmptyString
      /\ returned ExecuteCommand sh i = None)
  \/ (reply_err (shell_reply ExecuteCommand sh i) = None
      /\ reply_rc (shell_reply ExecuteCommand sh i) = 0
      /\ reply_output (shell_reply ExecuteCommand sh i) <> Response i
      /\ executed ExecuteCommand sh i
         = mkInteraction (Cmd i) (Response i) (Caption i) ResultMismatch
             EmptyString
      /\ returned ExecuteCommand sh i = None).
Proof.
  unfold executed, returned, shell_reply, reply_err, reply_rc, reply_output,
    Execute.
  destruct (ExecuteCommand sh (Cmd i)) as [sh' [[output rc] err]].
  cbn [fst snd].
  destruct err as [msg|]; [left; exists msg; cbn; auto|].
  right. destruct (Z.eqb_spec rc 0) as [->|Hrc]; [|left; cbn; auto].
  right. cbn [negb].
  destruct (DeepEqual output (Response i)) eqn:D.
  - left. apply DeepEqual_eq in D. cbn. auto.
  - right. cbn. repeat split; trivial.
    intros E. apply DeepEqual_eq in E. congruence.
Qed.

(** X7: the result code Execute leaves tells which reply the shell gave:
    ResultExecutionError exactly for a shell error; ResultError exactly for
    no error and a non-zero exit code; ResultMatch exactly for no error,
    exit code 0 and an output that is the expected response (same lines,
    same nil-ness); ResultMismatch exactly for no error, exit code 0 and any
    other output. *)
Theorem Execute_classification (sh : Shell) (i : Interaction) :
  (ResultCode (executed ExecuteCommand sh i) = ResultExecutionError
   <-> reply_err (shell_reply ExecuteCommand sh i) <> None)
  /\ (ResultCode (executed ExecuteCommand sh i) = ResultError
      <-> reply_err (shell_reply ExecuteCommand sh i) = None
          /\ reply_rc (shell_reply ExecuteCommand sh i) <> 0)
  /\ (ResultCode (executed ExecuteCommand sh i) = ResultMatch
      <-> reply_err (shell_reply ExecuteCommand sh i) = None
          /\ reply_rc (shell_reply ExecuteCommand sh i) = 0
          /\ reply_output (shell_reply ExecuteCommand sh i) = Response i)
  /\ (ResultCode (executed ExecuteCommand sh i) = ResultMismatch
      <-> reply_err (shell_reply ExecuteCommand sh i) = None
          /\ reply_rc (shell_reply ExecuteCommand sh i) = 0
          /\ reply_output (shell_reply ExecuteCommand sh i) <> Response i).
Proof.
  destruct (executed_cases sh i)
    as [(msg & He & -> & _)|[(He & Hrc & -> & _)
       |[(He & Hrc & Ho & -> & _)|(He & Hrc & Ho & -> & _)]]];
    cbn [ResultCode]; rewrite He; try rewrite Hrc;
    unfold ResultExecutionError, ResultError, ResultMatch, ResultMismatch;
    intuition (try discriminate; try congruence).
Qed.

(** X8: what Execute decides depends on the command and the expected
    response only: two interactions with the same Cmd and Response end with
    the same result code, the same comment and the same returned error,
    whatever result code, comment and caption they had before. *)
Theorem Execute_depends_on_Cmd_Response (sh : Shell) (i j : Interaction) :
  Cmd i = Cmd j -> Response i = Response j ->
  ResultCode (executed ExecuteCommand sh i)
  = ResultCode (executed ExecuteCommand sh j)
  /\ Comment (executed ExecuteCommand sh i)
     = Comment (executed ExecuteCommand sh j)
  /\ returned ExecuteCommand sh i = returned ExecuteCommand sh j.
Proof.
  intros Hc Hr.
  unfold executed, returned, Execute. rewrite Hc, Hr.
  destruct (ExecuteCommand sh (Cmd j)) as [sh' [[output rc] err]].
  destruct err as [msg|]; [cbn; auto|].
  destruct (rc =? 0); [|cbn; auto].
  destruct (DeepEqual output (Response j)); cbn; auto.
Qed.

(** X9: running Execute again on the interaction it left, against a shell
    that gives the same reply, leaves the interaction as it is: a second run
    overwrites result code and comment with the same values and adds
    nothing. *)
Theorem Execute_twice (sh sh2 : Shell) (i : Interaction) :
  shell_reply ExecuteCommand sh2 i = shell_reply ExecuteCommand sh i ->
  executed ExecuteCommand sh2 (executed ExecuteCommand sh i)
  = executed ExecuteCommand sh i
  /\ returned ExecuteCommand sh2 (executed ExecuteCommand sh i)
     = returned ExecuteCommand sh i.
Proof.
  unfold shell_reply, executed, returned, Execute.
  destruct (ExecuteCommand sh (Cmd i)) as [sh' [[output rc] err]].
  cbn [snd]. intros E2.
  assert (F : forall (b : bool) (x y : Shell * Interaction * error),
             Cmd (snd (fst x)) = Cmd i -> Cmd (snd (fst y)) = Cmd i ->
             Cmd (snd (fst (if b then x else y))) = Cmd i)
    by (intros [|]; auto).
  destruct err as [msg|].
  - cbn [fst snd set_Comment set_ResultCode Cmd Response Caption].
    destruct (ExecuteCommand sh2 (Cmd i)) as [sh2' r2]. cbn in E2. subst r2.
    cbn. auto.
  - destruct (rc =? 0) eqn:Hrc; cbn [negb].
    + destruct (DeepEqual output (Response i)) eqn:D;
        cbn [fst snd set_Comment set_ResultCode Cmd Response Caption
             compareRegex];
        destruct (ExecuteCommand sh2 (Cmd i)) as [sh2' r2]; cbn in E2;
        subst r2; rewrite Hrc, D; cbn; auto.
    + cbn [fst snd set_Comment set_ResultCode Cmd Response Caption].
      destruct (ExecuteCommand sh2 (Cmd i)) as [sh2' r2]. cbn in E2. subst r2.
      rewrite Hrc. cbn. auto.
Qed.

(** X10: after Execute, HasFailure is true exactly when the shell reported
    no error and either the exit code is not 0 or the output is not the
    expected response. *)
Theorem HasFailure_after_Execute (sh : Shell) (i : Interaction) :
  HasFailure (executed ExecuteCommand sh i) = true
  <-> reply_err (shell_reply ExecuteCommand sh i) = None
      /\ (reply_rc (shell_reply ExecuteCommand sh i) <> 0
          \/ reply_output (shell_reply ExecuteCommand sh i) <> Response i).
Proof.
  destruct (executed_cases sh i)
    as [(msg & He & -> & _)|[(He & Hrc & -> & _)
       |[(He & Hrc & Ho & -> & _)|(He & Hrc & Ho & -> & _)]]];
    cbn; rewrite He; split; try discriminate; auto.
  - intros [H _]; discriminate.
  - intros [_ [H|H]]; contradiction.
Qed.

(** X11: after Execute, Result is a PASS label exactly when the shell
    reported no error, exit code 0 and the expected response as its output;
    and Result is then never "not executed" nor "PASS (regex match)". *)
Theorem Result_after_Execute (sh : Shell) (i : Interaction) :
  (Result (executed ExecuteCommand sh i) = "PASS (execution successful)"
   \/ Result (executed ExecuteCommand sh i) = "PASS (match)"
   <-> reply_err (shell_reply ExecuteCommand sh i) = None
       /\ reply_rc (shell_reply ExecuteCommand sh i) = 0
       /\ reply_output (shell_reply ExecuteCommand sh i) = Response i)
  /\ Result (executed ExecuteCommand sh i) <> "not executed"
  /\ Result (executed ExecuteCommand sh i) <> "PASS (regex match)".
Proof.
  destruct (executed_cases sh i)
    as [(msg & He & -> & _)|[(He & Hrc & -> & _)
       |[(He & Hrc & Ho & -> & _)|(He & Hrc & Ho & -> & _)]]];
    unfold Result; cbn [ResultCode Response Z.eqb NewInteraction
      ResultExecutionError ResultError ResultMatch ResultRegexMatch
      ResultMismatch Pos.eqb];
    (split; [|split; try discriminate]).
  - rewrite He. split; [intros [H|H]; discriminate | intros [H _]; discriminate].
  - split; [intros [H|H]; discriminate | intros (_ & H & _); contradiction].
  - split; [auto|]. intros _. destruct (len (Response i) =? 0); auto.
  - destruct (len (Response i) =? 0); discriminate.
  - destruct (len (Response i) =? 0); discriminate.
  - split; [intros [H|H]; discriminate | intros (_ & _ & H); contradiction].
Qed.

(** X12: after Execute, the comment is the empty string exactly when the
    shell reported no error and exit code 0 (match or mismatch), or
    reported an error whose text is itself empty. *)
Theorem Execute_comment_empty_iff (sh : Shell) (i : Interaction) :
  Comment (executed ExecuteCommand sh i) = EmptyString
  <-> (reply_err (shell_reply ExecuteCommand sh i) = None
       /\ reply_rc (shell_reply ExecuteCommand sh i) = 0)
      \/ reply_err (shell_reply ExecuteCommand sh i) = Some EmptyString.
Proof.
  destruct (executed_cases sh i)
    as [(msg & He & -> & _)|[(He & Hrc & -> & _)
       |[(He & Hrc & Ho & -> & _)|(He & Hrc & Ho & -> & _)]]];
    cbn [Comment]; rewrite He.
  - split; [intros ->; auto | intros [[H _]|H]; congruence].
  - split; [discriminate | intros [[_ H]|H]; [contradiction | discriminate]].
  - split; auto.
  - split; auto.
Qed.

(** X13: the comment Execute leaves for a non-zero exit code tells the exit
    code: two runs that both end in ResultError with the same comment saw
    the same exit code. *)
Theorem Execute_comment_tells_exit_code
  (sh sh2 : Shell) (i j : Interaction) :
  ResultCode (executed ExecuteCommand sh i) = ResultError ->
  ResultCode (executed ExecuteCommand sh2 j) = ResultError ->
  Comment (executed ExecuteCommand sh i)
  = Comment (executed ExecuteCommand sh2 j) ->
  reply_rc (shell_reply ExecuteCommand sh i)
  = reply_rc (shell_reply ExecuteCommand sh2 j).
Proof.
  destruct (executed_cases sh i)
    as [(msg & He & -> & _)|[(He & Hrc & -> & _)
       |[(He & Hrc & Ho & -> & _)|(He & Hrc & Ho & -> & _)]]];
    cbn [ResultCode Comment]; try discriminate.
  destruct (executed_cases sh2 j)
    as [(msg & He2 & -> & _)|[(He2 & Hrc2 & -> & _)
       |[(He2 & Hrc2 & Ho2 & -> & _)|(He2 & Hrc2 & Ho2 & -> & _)]]];
    cbn [ResultCode Comment]; try discriminate.
  intros _ _ E. apply append_inj_l in E. apply Sprintf_d_inj, E.
Qed.

(** X14: Describe is the same before and after Execute: running the command
    never changes how the interaction is described. *)
Theorem Describe_after_Execute (sh : Shell) (i : Interaction) :
  Describe (executed ExecuteCommand sh i) = Describe i.
Proof.
  destruct (executed_cases sh i)
    as [(msg & He & -> & _)|[(He & Hrc & -> & _)
       |[(He & Hrc & Ho & -> & _)|(He & Hrc & Ho & -> & _)]]];
    reflexivity.
Qed.

(** X15: an interaction made by New reads "not executed"; run against a
    shell that reports no error, exit code 0 and no output (a nil slice), it
    ends in ResultMatch, reads "PASS (execution successful)", has no
    failure and Execute returns nil. *)
Theorem New_then_Execute (sh : Shell) (caption : string) :
  shell_reply ExecuteCommand sh (New caption) = (SliceNil, 0, None) ->
  Result (New caption) = "not executed"
  /\ ResultCode (executed ExecuteCommand sh (New caption)) = ResultMatch
  /\ Result (executed ExecuteCommand sh (New caption))
     = "PASS (execution successful)"
  /\ HasFailure (executed ExecuteCommand sh (New caption)) = false
  /\ returned ExecuteCommand sh (New caption) = None.
Proof.
  unfold shell_reply, executed, returned, Execute.
  destruct (ExecuteCommand sh (Cmd (New caption))) as [sh' r].
  cbn [snd]. intros ->. cbn. auto.
Qed.

End ExecuteOutcome.

(** ** More about Result and HasFailure *)

(** X16: the label Result gives determines the result code: each of the six
    labels of the known codes is given for its own code only (the two PASS
    labels of ResultMatch both for ResultMatch), and "WTF" is given exactly
    for ResultError and for every code below 0 or above 5. *)
Theorem Result_label_iff (i : Interaction) :
  (Result i = "not executed" <-> ResultCode i = NewInteraction)
  /\ (Result i = "ERROR (result not evaluated)"
      <-> ResultCode i = ResultExecutionError)
  /\ (Result i = "PASS (execution successful)" \/ Result i = "PASS (match)"
      <-> ResultCode i = ResultMatch)
  /\ (Result i = "PASS (regex match)" <-> ResultCode i = ResultRegexMatch)
  /\ (Result i = "FAIL (mismatch)" <-> ResultCode i = ResultMismatch)
  /\ (Result i = "WTF"
      <-> ResultCode i = ResultError \/ ResultCode i < 0 \/ 5 < ResultCode i).
Proof.
  unfold Result, NewInteraction, ResultExecutionError, ResultError,
    ResultMatch, ResultRegexMatch, ResultMismatch.
  destruct (Z.eqb_spec (ResultCode i) 0) as [E|N0].
  { rewrite E. intuition (try discriminate; try lia). }
  destruct (Z.eqb_spec (ResultCode i) 1) as [E|N1].
  { rewrite E. intuition (try discriminate; try lia). }
  destruct (Z.eqb_spec (ResultCode i) 3) as [E|N3].
  { rewrite E. destruct (len (Response i) =? 0);
      intuition (try discriminate; try lia). }
  destruct (Z.eqb_spec (ResultCode i) 4) as [E|N4].
  { rewrite E. intuition (try discriminate; try lia). }
  destruct (Z.eqb_spec (ResultCode i) 5) as [E|N5].
  { rewrite E. intuition (try discriminate; try lia). }
  intuition (try discriminate; try lia).
Qed.

(** X17: an interaction that has a failure never reads as passed, as not
    executed or as an execution error: its label is "FAIL (mismatch)" or
    "WTF". *)
Theorem HasFailure_label (i : Interaction) :
  HasFailure i = true ->
  Result i = "FAIL (mismatch)" \/ Result i = "WTF".
Proof.
  unfold HasFailure, Result. rewrite orb_true_iff, !Z.eqb_eq.
  intros [E|E]; rewrite E; cbn; auto.
Qed.

(** ** The further theorems at concrete inputs *)

Lemma elideString_truncates_at_7 :
  exists q rest,
    "0123456789" = q ++ rest
    /\ strlen q = 7 - 3
    /\ elideString "0123456789" 7 = q ++ "..."
    /\ strlen (elideString "0123456789" 7) = 7.
Proof.
  apply (elideString_truncates "0123456789" 7); reflexivity.
Defined.

Lemma Describe_length_bound_at_echo_long :
  strlen (Describe echo_long) <= 85.
Proof.
  apply (Describe_length_bound echo_long). reflexivity.
Defined.

Lemma Describe_no_response_blank_line :
  Describe (mkInteraction "echo" (SliceOf [EmptyString]) EmptyString
              NewInteraction EmptyString)
  = "command " ++ dquote ++ "echo" ++ dquote ++ " (no response expected)".
Proof.
  apply (proj2 (Describe_no_response_iff
                  (mkInteraction "echo" (SliceOf [EmptyString]) EmptyString
                     NewInteraction EmptyString)
                  eq_refl)).
  right. reflexivity.
Defined.

Lemma Execute_depends_on_Cmd_Response_at_hello :
  ResultCode
    (executed (replyShell (SliceOf ["Hello"], 0, None)) tt echo_hello)
  = ResultCode
      (executed (replyShell (SliceOf ["Hello"], 0, None)) tt
         (mkInteraction "echo hello" (SliceOf ["Hello"]) "greeting"
            ResultMismatch "old"))
  /\ Comment
       (executed (replyShell (SliceOf ["Hello"], 0, None)) tt echo_hello)
     = Comment
         (executed (replyShell (SliceOf ["Hello"], 0, None)) tt
            (mkInteraction "echo hello" (SliceOf ["Hello"]) "greeting"
               ResultMismatch "old"))
  /\ returned (replyShell (SliceOf ["Hello"], 0, None)) tt echo_hello
     = returned (replyShell (SliceOf ["Hello"], 0, None)) tt
         (mkInteraction "echo hello" (SliceOf ["Hello"]) "greeting"
            ResultMismatch "old").
Proof.
  apply (Execute_depends_on_Cmd_Response
           (replyShell (SliceOf ["Hello"], 0, None)) tt echo_hello
           (mkInteraction "echo hello" (SliceOf ["Hello"]) "greeting"
              ResultMismatch "old"));
    reflexivity.
Defined.

Lemma Execute_twice_at_hello :
  executed (replyShell (SliceOf ["hello"], 0, None)) tt
    (executed (replyShell (SliceOf ["hello"], 0, None)) tt echo_hello)
  = executed (replyShell (SliceOf ["hello"], 0, None)) tt echo_hello
  /\ returned (replyShell (SliceOf ["hello"], 0, None)) tt
       (executed (replyShell (SliceOf ["hello"], 0, None)) tt echo_hello)
     = returned (replyShell (SliceOf ["hello"], 0, None)) tt echo_hello.
Proof.
  apply (Execute_twice (replyShell (SliceOf ["hello"], 0, None)) tt tt
           echo_hello).
  reflexivity.
Defined.

Lemma Execute_comment_tells_exit_code_at_2 :
  reply_rc (shell_reply (replyShell (SliceNil, 2, None)) tt echo_true)
  = reply_rc (shell_reply (replyShell (SliceNil, 2, None)) tt echo_hello).
Proof.
  apply (Execute_comment_tells_exit_code
           (replyShell (SliceNil, 2, None)) tt tt echo_true echo_hello);
    reflexivity.
Defined.

Lemma New_then_Execute_at_greeting :
  Result (New "greeting") = "not executed"
  /\ ResultCode (executed (replyShell (SliceNil, 0, None)) tt (New "greeting"))
     = ResultMatch
  /\ Result (executed (replyShell (SliceNil, 0, None)) tt (New "greeting"))
     = "PASS (execution successful)"
  /\ HasFailure
       (executed (replyShell (SliceNil, 0, None)) tt (New "greeting"))
     = false
  /\ returned (replyShell (SliceNil, 0, None)) tt (New "greeting") = None.
Proof.
  apply (New_then_Execute (replyShell (SliceNil, 0, None)) tt "greeting").
  reflexivity.
Defined.

Lemma HasFailure_label_at_mismatch :
  Result (executed (replyShell (SliceOf ["hello"], 0, None)) tt echo_hello)
  = "FAIL (mismatch)"
  \/ Result (executed (replyShell (SliceOf ["hello"], 0, None)) tt echo_hello)
     = "WTF".
Proof.
  apply (HasFailure_label
           (executed (replyShell (SliceOf ["hello"], 0, None)) tt echo_hello)).
  reflexivity.
Defined.
